(** * Conscious Day Agent: the response sectionizer

    A shallow embedding of [ConsciousAgent._parse_response]
    (src/agent/conscious_agent.py), the function that cuts one completion
    of the language model into the four sections of a journal entry, and
    the properties of it that the specification states.

    With it come the tools of the agent and [process_reflection] from the
    same file, and the pages of src/components/ui_components.py that make
    and read the labels of the entries.

    Text is a list of 8-bit characters.  The character tables ([isspace],
    [upper_char]) are CPython's on the ASCII range; the characters from 128
    on are kept as they are by [upper] and are not white space, so the
    embedding is exact for ASCII text. *)

From Stdlib Require Import Ascii String ZArith Decimal DecimalZ DecimalPos.
From stdpp Require Import gmap strings list fin_maps.

Set Default Proof Using "Type".

(** ** Python's [str] *)

Module PyStr.

Abbreviation str := (list ascii).

(** A string literal of the source. *)
Definition lit (s : string) : str := list_ascii_of_string s.

(** [bool(s)]: a string is true when it is not empty. *)
Definition truthy (s : str) : bool :=
  match s with [] => false | _ :: _ => true end.

Definition ascii_code (c : ascii) : N := N_of_ascii c.

(** [c.isspace()] on one character: TAB, LF, VT, FF, CR, the four
    separators FS, GS, RS, US, and the space. *)
Definition isspace (c : ascii) : bool :=
  let n := ascii_code c in
  ((9 <=? n) && (n <=? 13) || (28 <=? n) && (n <=? 32))%N.

(** [c.upper()] on one character: the letters a to z lose 32. *)
Definition upper_char (c : ascii) : ascii :=
  let n := ascii_code c in
  if ((97 <=? n) && (n <=? 122))%N then ascii_of_N (n - 32) else c.

(** [s.upper()] *)
Definition upper (s : str) : str := upper_char <$> s.

(** [s.lstrip()], [s.rstrip()] and [s.strip()] without argument. *)
Fixpoint lstrip (s : str) : str :=
  match s with
  | [] => []
  | c :: t => if isspace c then lstrip t else s
  end.

Definition rstrip (s : str) : str := reverse (lstrip (reverse s)).

Definition strip (s : str) : str := lstrip (rstrip s).

(** [s.startswith(p)] *)
Fixpoint startswith (p s : str) : bool :=
  match p, s with
  | [], _ => true
  | _ :: _, [] => false
  | a :: p', b :: s' => Ascii.eqb a b && startswith p' s'
  end.

(** [s.endswith(p)] *)
Definition endswith (p s : str) : bool := startswith (reverse p) (reverse s).

(** [sub in s] *)
Fixpoint contains (sub s : str) : bool :=
  startswith sub s ||
  match s with
  | [] => false
  | _ :: t => contains sub t
  end.

(** [s.split(sep)] for a separator that is not empty: the text is cut at
    the occurrences of [sep] found from left to right, not overlapping.
    [skip] counts the characters of a separator just found that are still
    to be passed over, [acc] holds the current piece, reversed. *)
Fixpoint split_go (sep : str) (skip : nat) (acc : str) (s : str) : list str :=
  match s with
  | [] => [reverse acc]
  | c :: t =>
      match skip with
      | S n => split_go sep n acc t
      | O =>
          if startswith sep s
          then reverse acc :: split_go sep (length sep - 1) [] t
          else split_go sep 0 (c :: acc) t
      end
  end.

Definition split (sep s : str) : list str := split_go sep 0 [] s.

(** [s.replace(old, new)] for [old] not empty: every occurrence of [old],
    found from left to right and not overlapping, becomes [new]. *)
Fixpoint replace_go (old new : str) (skip : nat) (s : str) : str :=
  match s with
  | [] => []
  | c :: t =>
      match skip with
      | S n => replace_go old new n t
      | O =>
          if startswith old s
          then new ++ replace_go old new (length old - 1) t
          else c :: replace_go old new 0 t
      end
  end.

Definition replace (old new s : str) : str := replace_go old new 0 s.

(** [s[1:-1]] *)
Definition slice_1_m1 (s : str) : str := removelast (tail s).

End PyStr.

Import PyStr.

(** ** The sectionizer *)

Module Agent.

(** The outcome of a piece of Python code: a value, or the [KeyError] that
    a subscript [d[k]] raises when [k] is not a key of [d].  No other
    exception can arise in [_parse_response], whose argument is a [str]. *)
Inductive result (A : Type) : Type :=
  | Ok (a : A)
  | KeyError (k : string).
Arguments Ok {A} a.
Arguments KeyError {A} k.

#[global] Instance result_ret : MRet result := fun A a => Ok a.
#[global] Instance result_bind : MBind result := fun A B f r =>
  match r with
  | Ok a => f a
  | KeyError k => KeyError k
  end.

(** [Dict[str, str]] *)
Abbreviation dict := (gmap string str).

(** [d[k]] read *)
Definition getitem (d : dict) (k : string) : result str :=
  match d !! k with
  | Some v => Ok v
  | None => KeyError k
  end.

(** [d[k] = v] *)
Definition setitem (d : dict) (k : string) (v : str) : dict := <[k:=v]> d.

(** The four branches of the [if]/[elif] chain. *)
Inductive header : Type :=
  | InnerReflection
  | DreamInterpretation
  | MindsetInsight
  | DayStrategy.

#[global] Instance header_eq_dec : EqDecision header.
Proof. solve_decision. Defined.

(** The label looked for in [part.upper()], also the first text that
    [replace] removes. *)
Definition label (h : header) : str :=
  match h with
  | InnerReflection => lit "INNER REFLECTION:"
  | DreamInterpretation => lit "DREAM INTERPRETATION:"
  | MindsetInsight => lit "MINDSET INSIGHT:"
  | DayStrategy => lit "DAY STRATEGY:"
  end.

(** The second text that [replace] removes. *)
Definition title (h : header) : str :=
  match h with
  | InnerReflection => lit "Inner Reflection:"
  | DreamInterpretation => lit "Dream Interpretation:"
  | MindsetInsight => lit "Mindset Insight:"
  | DayStrategy => lit "Day Strategy:"
  end.

(** The key that the branch assigns to [current_section]. *)
Definition key (h : header) : string :=
  match h with
  | InnerReflection => "reflection"
  | DreamInterpretation => "dream_interpretation"
  | MindsetInsight => "mindset_insight"
  | DayStrategy => "strategy"
  end.

(** The list of the last [elif]. *)
Definition headers : list str :=
  [label InnerReflection; label DreamInterpretation;
   label MindsetInsight; label DayStrategy].

(** Which of the first four conditions holds first, if any:
    [if L1 in part.upper(): ... elif L2 in part.upper(): ...]. *)
Definition header_of (part : str) : option header :=
  if contains (label InnerReflection) (upper part) then Some InnerReflection
  else if contains (label DreamInterpretation) (upper part) then Some DreamInterpretation
  else if contains (label MindsetInsight) (upper part) then Some MindsetInsight
  else if contains (label DayStrategy) (upper part) then Some DayStrategy
  else None.

(** [part.replace(LABEL, '').replace(Title, '').strip()] *)
Definition content_of (h : header) (part : str) : str :=
  strip (replace (title h) [] (replace (label h) [] part)).

(** The variables of the loop. *)
Record state : Type := State {
  sections : dict;
  current_section : option string
}.

(** [bool(current_section)]: [None] and the empty string are false. *)
Definition truthy_section (cs : option string) : bool :=
  match cs with
  | Some k => negb (String.eqb k "")
  | None => false
  end.

(** [any(header in part.upper() for header in [...])] *)
Definition any_header (part : str) : bool :=
  existsb (fun header => contains header (upper part)) headers.

(** The body of [for part in parts]. *)
Definition step (st : state) (part0 : str) : result state :=
  let part := strip part0 in
  match header_of part with
  | Some h =>
      let current := key h in
      let content := content_of h part in
      Ok (State (setitem (sections st) current content) (Some current))
  | None =>
      if truthy_section (current_section st) && truthy part
         && negb (any_header part)
      then
        match current_section st with
        | Some current =>
            v ← getitem (sections st) current;
            if truthy v
            then
              v' ← getitem (sections st) current;
              Ok (State (setitem (sections st) current (v' ++ lit " " ++ part))
                        (Some current))
            else
              Ok (State (setitem (sections st) current part) (Some current))
        | None => Ok st
        end
      else Ok st
  end.

(** [for part in parts: ...] *)
Fixpoint scan (st : state) (parts : list str) : result state :=
  match parts with
  | [] => Ok st
  | part :: rest => st' ← step st part; scan st' rest
  end.

(** The body of [for key in sections]. *)
Definition clean_key (d : dict) (k : string) : result dict :=
  v ← getitem d k;
  let d1 := setitem d k (strip v) in
  v1 ← getitem d1 k;
  v2 ← getitem d1 k;
  if startswith (lit "[") v1 && endswith (lit "]") v2
  then
    v3 ← getitem d1 k;
    Ok (setitem d1 k (strip (slice_1_m1 v3)))
  else Ok d1.

Fixpoint for_keys (ks : list string) (d : dict) : result dict :=
  match ks with
  | [] => Ok d
  | k :: rest => d' ← clean_key d k; for_keys rest d'
  end.

(** [for key in sections: ...].  The loop assigns to keys that are there,
    so the keys it walks are those of the dictionary it starts with; each
    is visited once. *)
Definition cleanup (d : dict) : result dict :=
  for_keys (map_to_list d).*1 d.

(** The dictionary literal that [sections] starts as. *)
Definition initial_sections : dict :=
  <["reflection" := []]>
    (<["dream_interpretation" := []]>
      (<["mindset_insight" := []]>
        (<["strategy" := []]> ∅))).

(** The loop and the clean-up, on the parts of the response. *)
Definition parse_parts (parts : list str) : result dict :=
  st ← scan (State initial_sections None) parts;
  cleanup (sections st).

(** [ConsciousAgent._parse_response]; [self] is not used. *)
Definition _parse_response (response : str) : result dict :=
  let parts := split (lit "**") response in
  parse_parts parts.

End Agent.

Import Agent.

(** ** What the loops compute, section by section *)

Module Sectionizer.

(** The separator that [_parse_response] splits at. *)
Definition marker : str := lit "**".

(** The value that the clean-up loop leaves for a value [v]. *)
Definition clean_value (v : str) : str :=
  let v1 := strip v in
  if startswith (lit "[") v1 && endswith (lit "]") v1
  then strip (slice_1_m1 v1)
  else v1.

(** What the last branch of the loop makes of the value [v] of the current
    section when it meets the stripped part [part]. *)
Definition append_part (v part : str) : str :=
  if truthy part
  then (if truthy v then v ++ lit " " ++ part else part)
  else v.


(** The value of the section of [h] along the loop: [v] is its value so
    far, [active] says whether [current_section] is its key. *)
Fixpoint track (h : header) (v : str) (active : bool) (parts : list str) : str :=
  match parts with
  | [] => v
  | p :: rest =>
      match header_of (strip p) with
      | Some h' =>
          if decide (h' = h)
          then track h (content_of h (strip p)) true rest
          else track h v false rest
      | None =>
          track h (if active then append_part v (strip p) else v) active rest
      end
  end.

(** The keys of the dictionary literal. *)
Definition section_keys : gset string :=
  {[ "reflection"; "dream_interpretation"; "mindset_insight"; "strategy" ]}.

(** The dictionary with the value [f h] at the key of each header [h]. *)
Definition dict_of (f : header -> str) : dict :=
  <["reflection" := f InnerReflection]>
    (<["dream_interpretation" := f DreamInterpretation]>
      (<["mindset_insight" := f MindsetInsight]>
        (<["strategy" := f DayStrategy]> ∅))).

(** The dictionary with the four values given. *)
Definition sections_dict
    (reflection dream_interpretation mindset_insight strategy : str) : dict :=
  dict_of (fun h =>
    match h with
    | InnerReflection => reflection
    | DreamInterpretation => dream_interpretation
    | MindsetInsight => mindset_insight
    | DayStrategy => strategy
    end).

(** The states that the loop can reach: the dictionary has the four keys
    and [current_section] is [None] or one of them. *)
Definition reachable (st : state) : Prop :=
  dom (sections st) = section_keys ∧
  ∀ k, current_section st = Some k → ∃ h, k = key h.

(** [sub] occurs in [s]. *)
Definition occurs (sub s : str) : Prop := ∃ a b, s = a ++ sub ++ b.






(** A header part with the parts up to the next header. *)
Record block : Type := Block {
  block_header : header;
  block_part : str;
  block_body : list str
}.

Definition block_parts (b : block) : list str := block_part b :: block_body b.

(** The parts of a response made of the blocks [bs], in their order. *)
Definition blocks_parts (bs : list block) : list str :=
  concat (block_parts <$> bs).

Definition block_ok (b : block) : Prop :=
  header_of (block_part b) = Some (block_header b) ∧
  Forall (fun p => header_of p = None) (block_body b).


End Sectionizer.

Import Sectionizer.

(** ** More of Python's [str] *)

Module PyText.

(** [c.lower()] on one character: the letters A to Z gain 32. *)
Definition lower_char (c : ascii) : ascii :=
  let n := ascii_code c in
  if ((65 <=? n) && (n <=? 90))%N then ascii_of_N (n + 32) else c.

(** [s.lower()] *)
Definition lower (s : str) : str := lower_char <$> s.

(** [sep.join(parts)] *)
Fixpoint join (sep : str) (parts : list str) : str :=
  match parts with
  | [] => []
  | [p] => p
  | p :: rest => p ++ sep ++ join sep rest
  end.

(** [a or b] on strings *)
Definition str_or (a b : str) : str := if truthy a then a else b.

(** [parts[i] if len(parts) > i else d] *)
Definition item_or (parts : list str) (i : nat) (d : str) : str :=
  if (i <? length parts)%nat
  then default [] (parts !! i)
  else d.

(** [v in items] on a list of strings *)
Definition str_in (v : str) (items : list str) : bool :=
  existsb (fun x => bool_decide (v = x)) items.

End PyText.

Import PyText.

(** ** The tools of the agent and [process_reflection] *)

Module Tools.

(** What a tool gives back: a text of its own, or the content of the
    answer of the language model to a prompt,
    [self.llm.invoke(prompt).content]. *)
Inductive answer : Type :=
  | Return (text : str)
  | Invoke (prompt : str).

(** The text that the tool returns when the model answers as [llm]. *)
Definition content (llm : str -> str) (a : answer) : str :=
  match a with
  | Return text => text
  | Invoke prompt => llm prompt
  end.

Definition analyze_emotions_prompt (input_str : str) : str :=
  lit "
            Analyze the emotional state and underlying feelings in this journal entry: "
  ++ input_str
  ++ lit "
            
            Focus on:
            - Current emotional state
            - Underlying patterns or themes
            - What the words reveal about their mindset
            
            Provide a compassionate 2-3 sentence analysis.
            ".

Definition analyze_emotions (input_str : str) : answer :=
  Invoke (analyze_emotions_prompt input_str).

Definition no_dream_answer : str :=
  lit "No dream shared today. Rest and subconscious processing remain valuable for mental clarity and emotional balance.".

Definition no_dream_inputs : list str :=
  [lit ""; lit "no dream"; lit "none"; lit "no dream shared"].

Definition interpret_dream_prompt (input_str : str) : str :=
  lit "
            Provide a thoughtful dream interpretation for: "
  ++ input_str
  ++ lit "
            
            Focus on:
            - Symbolic meanings
            - Emotional themes
            - Potential connections to waking life
            
            Provide a 2-3 sentence interpretation.
            ".

Definition interpret_dream (input_str : str) : answer :=
  if negb (truthy input_str) || str_in (lower (strip input_str)) no_dream_inputs
  then Return no_dream_answer
  else Invoke (interpret_dream_prompt input_str).

Definition create_strategy_prompt (intention priorities emotional_state : str) : str :=
  lit "
            Create a practical daily strategy based on:
            - Intention: "
  ++ intention
  ++ lit "
            - Priorities: "
  ++ priorities
  ++ lit "
            - Emotional State: "
  ++ emotional_state
  ++ lit "
            
            Provide:
            - Time-aware task suggestions
            - What to focus on and what to avoid
            - How to maintain the desired mindset
            
            Give a 3-4 sentence practical strategy.
            ".

Definition create_mindset_insight_prompt
    (intention emotional_state dream_analysis : str) : str :=
  lit "
            Based on this information:
            - Intention: "
  ++ intention
  ++ lit "
            - Emotional State: "
  ++ emotional_state
  ++ lit "
            - Dream Analysis: "
  ++ dream_analysis
  ++ lit "
            
            Provide a mindset insight that:
            - Connects intention to current emotional state
            - Suggests mindset shifts or awareness
            - Encourages balance and self-awareness
            
            Give a 2-3 sentence insight.
            ".

(** [data.get(k, "")] *)
Definition data_get (data : gmap string str) (k : string) : str :=
  default [] (data !! k).

Section Json.

(** [json.loads(input_str)] as far as the two tools use it: for a JSON
    object, the dictionary of its keys, each value as the f-string of the
    prompt prints it; [None] when [json.loads] raises, and when it gives a
    value that is no dictionary, on which [data.get] raises.  In both
    cases [except Exception] takes over. *)
Variable json_object : str -> option (gmap string str).

Definition create_strategy (input_str : str) : answer :=
  let '(intention, priorities, emotional_state) :=
    match json_object input_str with
    | Some data =>
        (data_get data "intention", data_get data "priorities",
         data_get data "emotional_state")
    | None =>
        let parts := split (lit "|") input_str in
        (item_or parts 0 input_str, item_or parts 1 [], item_or parts 2 [])
    end in
  Invoke (create_strategy_prompt intention priorities emotional_state).

Definition create_mindset_insight (input_str : str) : answer :=
  let '(intention, emotional_state, dream_analysis) :=
    match json_object input_str with
    | Some data =>
        (data_get data "intention", data_get data "emotional_state",
         data_get data "dream_analysis")
    | None =>
        let parts := split (lit "|") input_str in
        (item_or parts 0 input_str, item_or parts 1 [], item_or parts 2 [])
    end in
  Invoke (create_mindset_insight_prompt intention emotional_state dream_analysis).

End Json.








End Tools.

Import Tools.

(** ** The pages of [components/ui_components.py]

    The calls to Streamlit are kept as the list of the widgets they make;
    what the user does (the button, the choice in the list) is an argument.
    The emoji of the titles are kept as the bytes of their UTF-8 form. *)

Module Pages.

(** The exceptions of this part: [KeyError] and [ValueError]. *)
Inductive exn : Type :=
  | KeyErr (k : string)
  | ValueErr.

Inductive outcome (A : Type) : Type :=
  | Done (a : A)
  | Raised (e : exn).
Arguments Done {A} a.
Arguments Raised {A} e.

#[global] Instance outcome_ret : MRet outcome := fun A a => Done a.
#[global] Instance outcome_bind : MBind outcome := fun A B f r =>
  match r with
  | Done a => f a
  | Raised e => Raised e
  end.

(** What a column of a row of the table holds: [None], an [int] or a
    [str]. *)
Inductive value : Type :=
  | VNone
  | VInt (z : Z)
  | VStr (s : str).

#[global] Instance value_eq_dec : EqDecision value.
Proof. solve_decision. Defined.

(** An entry: [dict(row)], or the dictionary that the application makes. *)
Abbreviation entry := (gmap string value).

(** [bool(v)] *)
Definition truthy_value (v : value) : bool :=
  match v with
  | VNone => false
  | VInt z => negb (z =? 0)%Z
  | VStr s => truthy s
  end.

(** The digits of a decimal number, the first one first. *)
Fixpoint digits_of_uint (d : Decimal.uint) : str :=
  match d with
  | Decimal.Nil => []
  | Decimal.D0 d => "0"%char :: digits_of_uint d
  | Decimal.D1 d => "1"%char :: digits_of_uint d
  | Decimal.D2 d => "2"%char :: digits_of_uint d
  | Decimal.D3 d => "3"%char :: digits_of_uint d
  | Decimal.D4 d => "4"%char :: digits_of_uint d
  | Decimal.D5 d => "5"%char :: digits_of_uint d
  | Decimal.D6 d => "6"%char :: digits_of_uint d
  | Decimal.D7 d => "7"%char :: digits_of_uint d
  | Decimal.D8 d => "8"%char :: digits_of_uint d
  | Decimal.D9 d => "9"%char :: digits_of_uint d
  end.

(** The digit that a character is. *)
Definition digit_of_char (c : ascii) : option (Decimal.uint -> Decimal.uint) :=
  if Ascii.eqb c "0" then Some Decimal.D0
  else if Ascii.eqb c "1" then Some Decimal.D1
  else if Ascii.eqb c "2" then Some Decimal.D2
  else if Ascii.eqb c "3" then Some Decimal.D3
  else if Ascii.eqb c "4" then Some Decimal.D4
  else if Ascii.eqb c "5" then Some Decimal.D5
  else if Ascii.eqb c "6" then Some Decimal.D6
  else if Ascii.eqb c "7" then Some Decimal.D7
  else if Ascii.eqb c "8" then Some Decimal.D8
  else if Ascii.eqb c "9" then Some Decimal.D9
  else None.

Fixpoint uint_of_digits (s : str) : option Decimal.uint :=
  match s with
  | [] => Some Decimal.Nil
  | c :: t =>
      match digit_of_char c, uint_of_digits t with
      | Some k, Some d => Some (k d)
      | _, _ => None
      end
  end.

(** The most digits that Python turns into an [int], or an [int] into
    digits, before it raises [ValueError]. *)
Definition max_str_digits : nat := 4300.

(** [str(z)] for an [int]. *)
Definition str_of_int (z : Z) : outcome str :=
  let '(sign, d) :=
    match Z.to_int z with
    | Decimal.Pos d => ([], d)
    | Decimal.Neg d => (lit "-", d)
    end in
  let digits := digits_of_uint d in
  if (max_str_digits <? length digits)%nat
  then Raised ValueErr
  else Done (sign ++ digits).

(** The white space that [int] passes over at both ends: TAB, LF, VT, FF,
    CR and the space. *)
Definition int_space (c : ascii) : bool :=
  let n := ascii_code c in
  ((9 <=? n) && (n <=? 13) || (n =? 32))%N.

Fixpoint skip_spaces (s : str) : str :=
  match s with
  | [] => []
  | c :: t => if int_space c then skip_spaces t else s
  end.

(** The digits of a text made of digits with single underscores between
    them; [after_digit] says whether the character before was a digit. *)
Fixpoint digit_groups (after_digit : bool) (s : str) : option str :=
  match s with
  | [] => if after_digit then Some [] else None
  | c :: t =>
      match digit_of_char c with
      | Some _ => cons c <$> digit_groups true t
      | None =>
          if Ascii.eqb c "_" && after_digit
          then digit_groups false t
          else None
      end
  end.

(** [int(s)] for a [str]. *)
Definition int_of_str (s : str) : outcome Z :=
  let t := reverse (skip_spaces (reverse (skip_spaces s))) in
  let '(negative, body) :=
    match t with
    | c :: b =>
        if Ascii.eqb c "-" then (true, b)
        else if Ascii.eqb c "+" then (false, b)
        else (false, t)
    | [] => (false, t)
    end in
  match digit_groups false body with
  | Some digits =>
      if (max_str_digits <? length digits)%nat
      then Raised ValueErr
      else
        match uint_of_digits digits with
        | Some d => Done (if negative then - Z.of_uint d else Z.of_uint d)%Z
        | None => Raised ValueErr
        end
  | None => Raised ValueErr
  end.

(** [f"{v}"] *)
Definition format_value (v : value) : outcome str :=
  match v with
  | VNone => Done (lit "None")
  | VInt z => str_of_int z
  | VStr s => Done s
  end.

(** [v == n] for an [int] [n] *)
Definition equals_int (v : value) (n : Z) : bool :=
  match v with
  | VInt z => (z =? n)%Z
  | _ => false
  end.

(** [e[k]] *)
Definition get_item (e : entry) (k : string) : outcome value :=
  match e !! k with
  | Some v => Done v
  | None => Raised (KeyErr k)
  end.

(** [e.get(k)] and [e.get(k, d)] *)
Definition get_or (e : entry) (k : string) (d : value) : value :=
  default d (e !! k).

(** The widgets. *)
#[warnings="-register-all"]
Inductive widget : Type :=
  | Info (text : str)
  | Header (text : str)
  | Subheader (text : str)
  | Write (args : list value)
  | Columns (left right : list widget)
  | Expander (label : str) (body : list widget)
  | SidebarMarkdown (text : str)
  | SidebarButton (label : str)
  | SidebarInfo (text : str)
  | SidebarRadio (label : str) (options : list str).

(** One of the four blocks of [display_entry]:
    [if entry.get(k): st.subheader(title); st.write(entry[k])]. *)
Definition section_widgets (e : entry) (k : string) (title : str) : list widget :=
  if truthy_value (get_or e k VNone)
  then [Subheader title; Write [get_or e k VNone]]
  else [].

(** [display_entry] *)
Definition display_entry (e : entry) : outcome (list widget) :=
  date ← get_item e "date";
  shown ← format_value date;
  Done
    [Header (lit "📅 Reflection from " ++ shown);
     Columns
       (section_widgets e "reflection" (lit "🔍 Inner Reflection")
        ++ section_widgets e "dream_interpretation" (lit "💭 Dream Interpretation"))
       (section_widgets e "mindset_insight" (lit "🧠 Mindset Insight")
        ++ section_widgets e "strategy" (lit "📋 Day Strategy"));
     Expander (lit "📂 View Original Inputs")
       [Write [VStr (lit "**Journal:**"); get_or e "journal" (VStr (lit "N/A"))];
        Write [VStr (lit "**Dream:**");
               get_or e "dream" (VStr (lit "No dream recorded"))];
        Write [VStr (lit "**Intention:**"); get_or e "intention" (VStr (lit "N/A"))];
        Write [VStr (lit "**Priorities:**");
               get_or e "priorities" (VStr (lit "N/A"))]]].

(** [f"{e['date']} - #{e['id']}"] *)
Definition entry_label (e : entry) : outcome str :=
  date ← get_item e "date";
  shown ← format_value date;
  id ← get_item e "id";
  number ← format_value id;
  Done (shown ++ lit " - #" ++ number).

(** [[f(e) for e in entries]] *)
Fixpoint for_each {A B : Type} (f : A -> outcome B) (l : list A) : outcome (list B) :=
  match l with
  | [] => Done []
  | x :: rest => y ← f x; ys ← for_each f rest; Done (y :: ys)
  end.

(** How [render_sidebar] ends: with [st.rerun()], after
    [st.session_state.new_entry = True], or with a value. *)
Inductive sidebar_end : Type :=
  | Rerun
  | Returned (selected : option str).

(** [render_sidebar]; [pressed] is what [st.sidebar.button] returns and
    [radio] what [st.sidebar.radio] returns for its options. *)
Definition render_sidebar (pressed : bool) (radio : list str -> str)
    (entries : list entry) : outcome (list widget * sidebar_end) :=
  let top :=
    [SidebarMarkdown (lit "### 🌅 Conscious Day Agent");
     SidebarButton (lit "➕ Create New Entry")] in
  if pressed then Done (top, Rerun)
  else
    let history :=
      top ++ [SidebarMarkdown (lit "---");
              SidebarMarkdown (lit "### 📜 Entry History")] in
    match entries with
    | [] =>
        Done (history ++ [SidebarInfo (lit "No previous entries found.")],
              Returned None)
    | _ :: _ =>
        entry_labels ← for_each entry_label entries;
        Done (history ++ [SidebarRadio (lit "Select an entry:") entry_labels],
              Returned (Some (radio entry_labels)))
    end.

(** [next((e for e in entries if e['id'] == selected_id), None)] *)
Fixpoint first_with_id (entries : list entry) (selected_id : Z)
    : outcome (option entry) :=
  match entries with
  | [] => Done None
  | e :: rest =>
      id ← get_item e "id";
      if equals_int id selected_id then Done (Some e)
      else first_with_id rest selected_id
  end.

(** [parts[-1]] of a list of strings that is not empty. *)
Definition last_item (parts : list str) : str := default [] (last parts).

(** [render_previous_entries] *)
Definition render_previous_entries (entries : list entry) (selected_label : str)
    : outcome (list widget) :=
  if negb (truthy selected_label)
  then Done [Info (lit "Select an entry from the sidebar to view.")]
  else
    selected_id ← int_of_str (last_item (split (lit "#") selected_label));
    found ← first_with_id entries selected_id;
    match found with
    | Some e => if bool_decide (e = ∅) then Done [] else display_entry e
    | None => Done []
    end.

End Pages.

Import Pages.

(** ** Facts about the string operations *)

Module PyStrFacts.


(** *** [startswith] and [contains] *)

Lemma startswith_app p s : startswith p (p ++ s) = true.
Proof.
  induction p as [|a p IH]; simpl; [done|].
  by rewrite Ascii.eqb_refl.
Qed.

Lemma startswith_inv p s : startswith p s = true → ∃ b, s = p ++ b.
Proof.
  revert s. induction p as [|a p IH]; intros s H; simpl in *.
  - by exists s.
  - destruct s as [|c s]; [done|].
    apply andb_prop in H as [Hac Hps].
    apply Ascii.eqb_eq in Hac as ->.
    destruct (IH _ Hps) as [b ->]. by exists b.
Qed.

Lemma contains_cons sub c s :
  contains sub (c :: s) = startswith sub (c :: s) || contains sub s.
Proof. done. Qed.

Lemma contains_occurs sub s : contains sub s = true ↔ occurs sub s.
Proof.
  split.
  - induction s as [|c s IH]; simpl; intros H.
    + rewrite orb_false_r in H. apply startswith_inv in H as [b ->].
      by exists [], b.
    + apply orb_prop in H as [H|H].
      * apply startswith_inv in H as [b ->]. by exists [], b.
      * destruct (IH H) as (a & b & ->). by exists (c :: a), b.
  - intros (a & b & ->). induction a as [|c a IH]; simpl.
    + destruct (sub ++ b) eqn:E; simpl.
      * destruct sub; [done|discriminate].
      * by rewrite <- E, startswith_app.
    + by rewrite IH, orb_true_r.
Qed.


Lemma contains_app_r sub s t : contains sub t = true → contains sub (s ++ t) = true.
Proof.
  rewrite !contains_occurs. intros (a & b & ->).
  exists (s ++ a), b. by rewrite <- !app_assoc.
Qed.


(** *** [strip] *)











Lemma strip_nil : strip [] = [].
Proof. done. Qed.




(** A text that neither starts nor ends with white space is found in the
    stripped text exactly when it is found in the text. *)


Lemma startswith_snoc sub a c s :
  last sub = Some a → a ≠ c →
  startswith sub (s ++ [c]) = startswith sub s.
Proof.
  intros Hsub Hac. revert s Hsub.
  induction sub as [|x sub IH]; intros s Hsub; [done|].
  destruct sub as [|y sub].
  - injection Hsub as ->. destruct s as [|b s]; simpl.
    + destruct (Ascii.eqb_spec a c); [done|done].
    + by rewrite !andb_true_r.
  - rewrite last_cons_cons in Hsub.
    destruct s as [|b s]; simpl.
    + by rewrite andb_false_r.
    + f_equal. by apply IH.
Qed.

Lemma contains_snoc sub a c s :
  last sub = Some a → a ≠ c →
  contains sub (s ++ [c]) = contains sub s.
Proof.
  intros Hsub Hac. induction s as [|b s IH].
  - pose proof (startswith_snoc sub a c [] Hsub Hac) as E.
    simpl app in *. rewrite contains_cons, E. simpl.
    by destruct (startswith sub []).
  - change ((b :: s) ++ [c]) with (b :: (s ++ [c])).
    rewrite !contains_cons, IH. f_equal.
    by apply (startswith_snoc sub a c (b :: s)).
Qed.




(** *** [split] *)

Lemma split_go_skip sep n acc x rest :
  length x = n → split_go sep n acc (x ++ rest) = split_go sep 0 acc rest.
Proof.
  revert n. induction x as [|c x IH]; intros n Hn; simpl in *; subst; [done|].
  by apply IH.
Qed.

Lemma split_go_sep sep acc rest :
  sep ≠ [] →
  split_go sep 0 acc (sep ++ rest) = reverse acc :: split_go sep 0 [] rest.
Proof.
  destruct sep as [|a sep]; [done|]. intros _.
  change ((a :: sep) ++ rest) with (a :: (sep ++ rest)).
  cbn [split_go].
  change (a :: (sep ++ rest)) with ((a :: sep) ++ rest).
  rewrite startswith_app. f_equal.
  apply split_go_skip. simpl. lia.
Qed.

Lemma split_go_char sep acc c t :
  startswith sep (c :: t) = false →
  split_go sep 0 acc (c :: t) = split_go sep 0 (c :: acc) t.
Proof. intros H. cbn [split_go]. by rewrite H. Qed.

Lemma split_go_no_sep sep acc s :
  contains sep s = false → split_go sep 0 acc s = [reverse acc ++ s].
Proof.
  revert acc. induction s as [|c s IH]; intros acc H.
  - by rewrite app_nil_r.
  - rewrite contains_cons in H. apply orb_false_elim in H as [H1 H2].
    rewrite split_go_char, IH by done.
    by rewrite reverse_cons, <- app_assoc.
Qed.

Lemma split_no_sep sep s : contains sep s = false → split sep s = [s].
Proof. apply (split_go_no_sep sep []). Qed.





End PyStrFacts.

(** ** Facts about the loops *)

Module AgentFacts.

Import PyStrFacts.

Lemma key_inj h1 h2 : key h1 = key h2 → h1 = h2.
Proof. by destruct h1, h2. Qed.

Lemma key_ne h1 h2 : h1 ≠ h2 → key h1 ≠ key h2.
Proof. intros Hne Heq. by apply Hne, key_inj. Qed.

Lemma truthy_section_key h : truthy_section (Some (key h)) = true.
Proof. by destruct h. Qed.

Lemma key_elem h : key h ∈ section_keys.
Proof.
  unfold section_keys. rewrite !elem_of_union, !elem_of_singleton.
  destruct h; simpl; auto.
Qed.

Lemma section_keys_inv k : k ∈ section_keys → ∃ h, k = key h.
Proof.
  unfold section_keys. rewrite !elem_of_union, !elem_of_singleton.
  intros [[[->| ->]| ->]| ->];
    [by exists InnerReflection|by exists DreamInterpretation
    |by exists MindsetInsight|by exists DayStrategy].
Qed.

(** *** Recognising a header *)




Lemma header_of_None_any p : header_of p = None → any_header p = false.
Proof.
  unfold header_of, any_header, headers. simpl.
  repeat (destruct (contains _ _); [done|]). done.
Qed.


(** *** One turn of the first loop *)

Lemma dom_insert_key (d : gmap string str) h v :
  dom d = section_keys → dom (<[key h := v]> d) = section_keys.
Proof.
  intros Hd. rewrite dom_insert_L, Hd.
  apply subseteq_union_1_L, singleton_subseteq_l, key_elem.
Qed.

Lemma step_header st p h :
  header_of (strip p) = Some h →
  step st p
  = Ok (State (<[key h := content_of h (strip p)]> (sections st)) (Some (key h))).
Proof. intros H. unfold step. by rewrite H. Qed.

Lemma step_idle st p :
  header_of (strip p) = None → current_section st = None → step st p = Ok st.
Proof. intros H Hc. unfold step. by rewrite H, Hc. Qed.

Lemma step_append st p h v :
  header_of (strip p) = None →
  current_section st = Some (key h) →
  sections st !! key h = Some v →
  step st p
  = Ok (State (<[key h := append_part v (strip p)]> (sections st)) (Some (key h))).
Proof.
  intros H Hc Hv. unfold step. rewrite H, Hc, truthy_section_key.
  rewrite (header_of_None_any _ H). unfold append_part, getitem, setitem.
  destruct (truthy (strip p)) eqn:Hp; simpl.
  - rewrite Hv. simpl. by destruct (truthy v).
  - destruct st as [d cs]. simpl in *. subst cs. by rewrite insert_id.
Qed.

Lemma step_reachable st p :
  reachable st → ∃ st', step st p = Ok st' ∧ reachable st'.
Proof.
  intros [Hdom Hcur].
  destruct (header_of (strip p)) as [h|] eqn:H.
  - eexists. split; [by apply step_header|]. split; simpl.
    + by apply dom_insert_key.
    + intros k [= <-]. by exists h.
  - destruct (current_section st) as [k|] eqn:Hc.
    + destruct (Hcur k eq_refl) as [h ->].
      assert (is_Some (sections st !! key h)) as [v Hv].
      { apply elem_of_dom. rewrite Hdom. apply key_elem. }
      eexists. split; [by eapply step_append|]. split; simpl.
      * by apply dom_insert_key.
      * intros k [= <-]. by exists h.
    + exists st. split; [by apply step_idle|]. split; [done|].
      intros k Hk. congruence.
Qed.

(** *** The first loop, one section at a time *)

Lemma scan_track parts : ∀ st h v,
  reachable st →
  sections st !! key h = Some v →
  ∃ st', scan st parts = Ok st' ∧ reachable st' ∧
    sections st' !! key h
    = Some (track h v (bool_decide (current_section st = Some (key h))) parts).
Proof.
  induction parts as [|p parts IH]; intros st h v Hst Hv; simpl.
  - by exists st.
  - destruct (step_reachable st p Hst) as (st1 & Hstep & Hst1).
    rewrite Hstep. simpl.
    destruct (header_of (strip p)) as [h'|] eqn:H.
    + rewrite (step_header _ _ _ H) in Hstep. injection Hstep as <-.
      destruct (decide (h' = h)) as [->|Hne].
      * destruct (IH _ h (content_of h (strip p)) Hst1) as (st' & ? & ? & Hl).
        { simpl. apply lookup_insert_eq. }
        exists st'. simpl in Hl. by rewrite bool_decide_eq_true_2 in Hl.
      * destruct (IH _ h v Hst1) as (st' & ? & ? & Hl).
        { simpl. rewrite lookup_insert_ne; [done|by apply key_ne]. }
        exists st'. simpl in Hl. rewrite bool_decide_eq_false_2 in Hl; [done|].
        intros [= Heq]. by apply key_inj in Heq.
    + destruct (current_section st) as [k|] eqn:Hc.
      * destruct Hst as [Hdom Hcur]. destruct (Hcur k Hc) as [h0 ->].
        assert (is_Some (sections st !! key h0)) as [v0 Hv0].
        { apply elem_of_dom. rewrite Hdom. apply key_elem. }
        rewrite (step_append _ _ _ _ H Hc Hv0) in Hstep. injection Hstep as <-.
        destruct (decide (h0 = h)) as [->|Hne].
        -- rewrite bool_decide_eq_true_2 by done.
           assert (v0 = v) as -> by congruence.
           destruct (IH _ h (append_part v (strip p)) Hst1) as (st' & ? & ? & Hl).
           { simpl. apply lookup_insert_eq. }
           exists st'. simpl in Hl. by rewrite bool_decide_eq_true_2 in Hl.
        -- assert (Some (key h0) ≠ Some (key h)) as Hk.
           { intros [= Heq]. by apply key_inj in Heq. }
           rewrite bool_decide_eq_false_2 by done.
           destruct (IH _ h v Hst1) as (st' & ? & ? & Hl).
           { simpl. rewrite lookup_insert_ne; [done|by apply key_ne]. }
           exists st'. simpl in Hl. by rewrite bool_decide_eq_false_2 in Hl.
      * rewrite (step_idle _ _ H Hc) in Hstep. injection Hstep as <-.
        rewrite bool_decide_eq_false_2 by done.
        destruct (IH _ h v Hst1 Hv) as (st' & ? & ? & Hl).
        exists st'. rewrite Hc in Hl. by rewrite bool_decide_eq_false_2 in Hl.
Qed.

(** *** The second loop *)

Lemma clean_key_lookup (d : gmap string str) k v :
  d !! k = Some v → clean_key d k = Ok (<[k := clean_value v]> d).
Proof.
  intros Hv. unfold clean_key, getitem, setitem, clean_value.
  rewrite Hv. simpl. rewrite lookup_insert_eq. simpl.
  match goal with |- context [if ?b then _ else _] => destruct b end; [|done].
  simpl. by rewrite insert_insert_eq.
Qed.

Lemma for_keys_lookup ks : ∀ d : gmap string str,
  NoDup ks → (∀ k, k ∈ ks → is_Some (d !! k)) →
  ∃ d', for_keys ks d = Ok d' ∧
    ∀ k, d' !! k = if decide (k ∈ ks) then clean_value <$> d !! k else d !! k.
Proof.
  induction ks as [|k0 ks IH]; intros d Hnd Hks; cbn [for_keys].
  - exists d. split; [done|]. intros k.
    case_decide as Hk; [by apply not_elem_of_nil in Hk|done].
  - apply NoDup_cons in Hnd as [Hk0 Hnd].
    destruct (Hks k0) as [v0 Hv0]; [by left|].
    rewrite (clean_key_lookup _ _ _ Hv0). simpl.
    destruct (IH (<[k0 := clean_value v0]> d) Hnd) as (d' & Hd' & Hl).
    { intros k Hk. destruct (decide (k0 = k)) as [->|Hne].
      - by rewrite lookup_insert_eq.
      - rewrite lookup_insert_ne by done. apply Hks. by right. }
    exists d'. split; [done|]. intros k. rewrite Hl.
    destruct (decide (k0 = k)) as [<-|Hne].
    + rewrite decide_False by done. rewrite decide_True by by left.
      by rewrite lookup_insert_eq, Hv0.
    + rewrite lookup_insert_ne by done.
      destruct (decide (k ∈ ks)) as [Hin|Hnin].
      * by rewrite decide_True by by right.
      * rewrite decide_False; [done|]. by intros [->|?]%elem_of_cons.
Qed.

(** The second loop maps [clean_value] over the values. *)
Lemma cleanup_fmap (d : gmap string str) : cleanup d = Ok (clean_value <$> d).
Proof.
  unfold cleanup.
  assert (∀ k, k ∈ (map_to_list d).*1 ↔ is_Some (d !! k)) as Hin.
  { intros k. rewrite list_elem_of_fmap. split.
    - intros ([k' v] & -> & Hkv). apply elem_of_map_to_list in Hkv. by exists v.
    - intros [v Hv]. exists (k, v). split; [done|]. by apply elem_of_map_to_list. }
  destruct (for_keys_lookup (map_to_list d).*1 d) as (d' & -> & Hl).
  { apply NoDup_fst_map_to_list. }
  { intros k. apply Hin. }
  f_equal. apply map_eq. intros k. rewrite Hl, lookup_fmap.
  destruct (decide _) as [|Hnin]; [done|].
  rewrite Hin in Hnin. apply eq_None_not_Some in Hnin. by rewrite Hnin.
Qed.

(** *** The dictionary of the four sections *)

Lemma dict_of_lookup f h : dict_of f !! key h = Some (f h).
Proof. by destruct h. Qed.

Lemma dict_of_dom f : dom (dict_of f) = section_keys.
Proof. done. Qed.


Lemma dict_of_eq (d : gmap string str) f :
  dom d = section_keys → (∀ h, d !! key h = Some (f h)) → d = dict_of f.
Proof.
  intros Hdom Hl. apply map_eq. intros k.
  destruct (decide (k ∈ section_keys)) as [Hk|Hk].
  - apply section_keys_inv in Hk as [h ->]. by rewrite Hl, dict_of_lookup.
  - assert (d !! k = None) as ->.
    { apply not_elem_of_dom. by rewrite Hdom. }
    symmetry. apply not_elem_of_dom. by rewrite dict_of_dom.
Qed.

Lemma initial_reachable : reachable (State initial_sections None).
Proof. split; [done|]. intros k Hk. discriminate. Qed.

Lemma initial_lookup h : initial_sections !! key h = Some [].
Proof. by destruct h. Qed.

(** The first loop from the start, and both loops: the section of [h]
    ends as the clean value of what [track] follows. *)
Lemma scan_initial parts :
  ∃ st, scan (State initial_sections None) parts = Ok st ∧
    sections st = dict_of (fun h => track h [] false parts).
Proof.
  destruct (scan_track parts _ InnerReflection [] initial_reachable
              (initial_lookup _)) as (st & Hscan & [Hdom _] & _).
  exists st. split; [done|]. apply dict_of_eq; [done|]. intros h.
  destruct (scan_track parts _ h [] initial_reachable (initial_lookup _))
    as (st' & Hscan' & _ & Hl).
  rewrite Hscan in Hscan'. injection Hscan' as <-.
  rewrite Hl. by rewrite bool_decide_eq_false_2.
Qed.

Lemma parse_parts_track parts :
  parse_parts parts
  = Ok (dict_of (fun h => clean_value (track h [] false parts))).
Proof.
  unfold parse_parts. destruct (scan_initial parts) as (st & -> & Hst).
  simpl. by rewrite cleanup_fmap, Hst.
Qed.

(** *** Following one section *)






(** *** Responses made of blocks *)





(** The parts of every response are parts without header followed by
    blocks. *)
Lemma parts_blocks parts :
  ∃ pre bs, parts = pre ++ blocks_parts bs ∧
    Forall (fun p => header_of p = None) pre ∧ Forall block_ok bs.
Proof.
  induction parts as [|p parts (pre & bs & -> & Hpre & Hbs)].
  - by exists [], [].
  - destruct (header_of p) as [h|] eqn:Hp.
    + exists [], (Block h p pre :: bs). split; [done|].
      split; [constructor|]. by constructor.
    + exists (p :: pre), bs. split; [done|]. split; [by constructor|done].
Qed.



(** *** The clean-up of one value *)




Lemma clean_value_plain v :
  startswith (lit "[") (strip v) && endswith (lit "]") (strip v) = false →
  clean_value v = strip v.
Proof. intros H. unfold clean_value. by rewrite H. Qed.




End AgentFacts.

(** ** The properties of the specification *)

Import PyStrFacts AgentFacts.

Lemma parse_response_track response :
  _parse_response response
  = Ok (dict_of (fun h => clean_value (track h [] false (split marker response)))).
Proof. apply parse_parts_track. Qed.








(** C2.  For every response, [_parse_response] returns a dictionary whose
    keys are exactly reflection, dream_interpretation, mindset_insight and
    strategy, each with a text as its value. *)
Theorem parse_response_keys response :
  ∃ d : gmap string str, _parse_response response = Ok d ∧
    dom d = section_keys ∧
    ∀ k, is_Some (d !! k) ↔
      k = "reflection" ∨ k = "dream_interpretation" ∨
      k = "mindset_insight" ∨ k = "strategy".
Proof.
  eexists. split; [apply parse_response_track|].
  split; [apply dict_of_dom|].
  intros k. rewrite <- elem_of_dom, dict_of_dom. unfold section_keys.
  rewrite !elem_of_union, !elem_of_singleton. tauto.
Qed.

(** C3.  For every response, [_parse_response] returns a dictionary: the
    loops end and no subscript raises [KeyError], the one exception that
    the body could raise. *)
Theorem parse_response_total response :
  (∃ d, _parse_response response = Ok d) ∧
  ∀ k, _parse_response response ≠ KeyError k.
Proof.
  rewrite parse_response_track. split; [by eexists|done].
Qed.

(** C4: the code at a header label in lower case.  The label is found,
    as [part.upper()] is searched, and the section is the right one; but
    [replace] removes only the spellings in capitals and in title case, so
    the label stays in the value of the section, unlike for these two
    spellings. *)
Theorem parse_lower_case_header :
  header_of (lit "inner reflection:") = Some InnerReflection ∧
  _parse_response (lit "**inner reflection:** Feeling calm.")
  = Ok (sections_dict (lit "inner reflection: Feeling calm.") [] [] []) ∧
  _parse_response (lit "**Inner Reflection:** Feeling calm.")
  = Ok (sections_dict (lit "Feeling calm.") [] [] []) ∧
  _parse_response (lit "**INNER REFLECTION:** Feeling calm.")
  = Ok (sections_dict (lit "Feeling calm.") [] [] []).
Proof. repeat split; by vm_compute. Qed.














(** ** Further facts about the string operations *)

Module PyTextFacts.

Import PyStrFacts.








(** *** Letter case *)







(** *** [contains] and a tail without the last character of the text
    looked for *)

Lemma contains_app_tail sub a s t :
  last sub = Some a → Forall (fun c => c ≠ a) t →
  contains sub (s ++ t) = contains sub s.
Proof.
  intros Hsub. induction t as [|c t IH] using rev_ind; intros Ht.
  - by rewrite app_nil_r.
  - apply Forall_app in Ht as [Ht Hc]. apply Forall_inv in Hc.
    rewrite app_assoc, (contains_snoc sub a c); [by apply IH|done|done].
Qed.

Lemma contains_nil_false sub : sub ≠ [] → contains sub [] = false.
Proof. by destruct sub. Qed.

Lemma contains_tail_false sub a t :
  last sub = Some a → Forall (fun c => c ≠ a) t → contains sub t = false.
Proof.
  intros Hsub Ht. rewrite <- (app_nil_l t), (contains_app_tail sub a) by done.
  apply contains_nil_false. intros ->. done.
Qed.

(** *** The marker next to text without asterisk *)




(** *** [replace] *)




(** *** [split] at one character *)

Lemma split_go_char_sep c acc a rest :
  Forall (fun x => x ≠ c) a →
  split_go [c] 0 acc (a ++ c :: rest)
  = (reverse acc ++ a) :: split_go [c] 0 [] rest.
Proof.
  intros Ha. revert acc. induction Ha as [|x a Hx _ IH]; intros acc.
  - rewrite app_nil_r. apply (split_go_sep [c] acc rest). done.
  - change ((x :: a) ++ c :: rest) with (x :: (a ++ c :: rest)).
    rewrite split_go_char.
    + by rewrite IH, reverse_cons, <- app_assoc.
    + simpl. destruct (Ascii.eqb_spec c x); [congruence|done].
Qed.

Lemma split_char_sep c a rest :
  Forall (fun x => x ≠ c) a →
  split [c] (a ++ c :: rest) = a :: split [c] rest.
Proof. apply (split_go_char_sep c []). Qed.

Lemma split_char_none c a :
  Forall (fun x => x ≠ c) a → split [c] a = [a].
Proof.
  intros Ha. apply split_no_sep. by apply (contains_tail_false [c] c).
Qed.

(** [split] never gives the empty list. *)
Lemma split_go_not_nil sep n acc s : split_go sep n acc s ≠ [].
Proof.
  revert n acc. induction s as [|c s IH]; intros n acc; simpl; [done|].
  destruct n; [|apply IH]. destruct (startswith sep (c :: s)); [done|apply IH].
Qed.

(** *** [join] *)

Lemma join_cons_cons sep p q rest :
  join sep (p :: q :: rest) = p ++ sep ++ join sep (q :: rest).
Proof. done. Qed.

End PyTextFacts.

(** ** Further facts about the sectionizer *)

Module SectionFacts.

Import PyStrFacts AgentFacts PyTextFacts.




(** *** Header parts with a text after the label *)












(** *** The value of a section as a join *)


(** *** White space around the parts *)


End SectionFacts.

(** ** Further properties of the sectionizer *)

Import PyTextFacts SectionFacts.







(** ** Properties of the tools and of [process_reflection] *)

Module ToolFacts.

Import PyStrFacts AgentFacts.





Lemma item_or_lookup parts i d : item_or parts i d = default d (parts !! i).
Proof.
  unfold item_or. destruct (Nat.ltb_spec i (length parts)) as [Hlt|Hge].
  - by destruct (lookup_lt_is_Some_2 parts i Hlt) as [x ->].
  - by rewrite lookup_ge_None_2.
Qed.

(** The first three of the texts between the bars. *)
Lemma pipe_fields a b c rest :
  Forall (fun x => x ≠ "|"%char) a →
  Forall (fun x => x ≠ "|"%char) b →
  Forall (fun x => x ≠ "|"%char) c →
  split (lit "|") a = [a] ∧
  split (lit "|") (a ++ lit "|" ++ b) = [a; b] ∧
  split (lit "|") (a ++ lit "|" ++ b ++ lit "|" ++ c) = [a; b; c] ∧
  split (lit "|") (a ++ lit "|" ++ b ++ lit "|" ++ c ++ lit "|" ++ rest)
  = a :: b :: c :: split (lit "|") rest.
Proof.
  intros Ha Hb Hc. change (lit "|") with ["|"%char].
  repeat split; simpl app.
  - by apply split_char_none.
  - by rewrite split_char_sep, split_char_none.
  - by rewrite !split_char_sep, split_char_none.
  - by rewrite !split_char_sep.
Qed.









End ToolFacts.

Import ToolFacts.



(** X5.  The prompt of [process_reflection] shows the dream, or No dream
    shared when the dream is empty; [interpret_dream] answers the text
    shown as it answers the dream itself. *)
Theorem interpret_dream_shown dream :
  interpret_dream (str_or dream (lit "No dream shared")) = interpret_dream dream.
Proof.
  unfold str_or. destruct (truthy dream) eqn:Hdream; [done|].
  by destruct dream.
Qed.

(** X6.  When the input of [create_strategy] is no JSON object, the
    intention, the priorities and the emotional state of the prompt are
    the first three texts between vertical bars; a text that is missing is
    empty, and what follows a third bar is left out. *)
Theorem create_strategy_bars (json_object : str → option (gmap string str))
    a b c rest :
  Forall (fun x => x ≠ "|"%char) a →
  Forall (fun x => x ≠ "|"%char) b →
  Forall (fun x => x ≠ "|"%char) c →
  (json_object a = None →
   create_strategy json_object a = Invoke (create_strategy_prompt a [] [])) ∧
  (json_object (a ++ lit "|" ++ b) = None →
   create_strategy json_object (a ++ lit "|" ++ b)
   = Invoke (create_strategy_prompt a b [])) ∧
  (json_object (a ++ lit "|" ++ b ++ lit "|" ++ c) = None →
   create_strategy json_object (a ++ lit "|" ++ b ++ lit "|" ++ c)
   = Invoke (create_strategy_prompt a b c)) ∧
  (json_object (a ++ lit "|" ++ b ++ lit "|" ++ c ++ lit "|" ++ rest) = None →
   create_strategy json_object (a ++ lit "|" ++ b ++ lit "|" ++ c ++ lit "|" ++ rest)
   = Invoke (create_strategy_prompt a b c)).
Proof.
  intros Ha Hb Hc.
  destruct (pipe_fields a b c rest Ha Hb Hc) as (S1 & S2 & S3 & S4).
  repeat split; intros Hj; unfold create_strategy; rewrite Hj;
    cbv zeta; rewrite ?S1, ?S2, ?S3, ?S4; by rewrite !item_or_lookup.
Qed.

Lemma create_strategy_bars_witness :
  create_strategy (fun _ => None) (lit "be kind|write the report|calm|and more")
  = Invoke (create_strategy_prompt (lit "be kind") (lit "write the report")
              (lit "calm")).
Proof.
  apply (create_strategy_bars (fun _ => None) (lit "be kind")
           (lit "write the report") (lit "calm") (lit "and more"));
    [compute_done..|reflexivity].
Defined.

(** X7.  When the input of [create_mindset_insight] is no JSON object, the
    intention, the emotional state and the dream analysis of the prompt
    are the first three texts between vertical bars, in this order. *)
Theorem create_mindset_insight_bars (json_object : str → option (gmap string str))
    a b c rest :
  Forall (fun x => x ≠ "|"%char) a →
  Forall (fun x => x ≠ "|"%char) b →
  Forall (fun x => x ≠ "|"%char) c →
  (json_object a = None →
   create_mindset_insight json_object a
   = Invoke (create_mindset_insight_prompt a [] [])) ∧
  (json_object (a ++ lit "|" ++ b ++ lit "|" ++ c) = None →
   create_mindset_insight json_object (a ++ lit "|" ++ b ++ lit "|" ++ c)
   = Invoke (create_mindset_insight_prompt a b c)) ∧
  (json_object (a ++ lit "|" ++ b ++ lit "|" ++ c ++ lit "|" ++ rest) = None →
   create_mindset_insight json_object
     (a ++ lit "|" ++ b ++ lit "|" ++ c ++ lit "|" ++ rest)
   = Invoke (create_mindset_insight_prompt a b c)).
Proof.
  intros Ha Hb Hc.
  destruct (pipe_fields a b c rest Ha Hb Hc) as (S1 & S2 & S3 & S4).
  repeat split; intros Hj; unfold create_mindset_insight; rewrite Hj;
    cbv zeta; rewrite ?S1, ?S3, ?S4; by rewrite !item_or_lookup.
Qed.

Lemma create_mindset_insight_bars_witness :
  create_mindset_insight (fun _ => None) (lit "be kind|calm|water stands for rest")
  = Invoke (create_mindset_insight_prompt (lit "be kind") (lit "calm")
              (lit "water stands for rest")).
Proof.
  apply (create_mindset_insight_bars (fun _ => None) (lit "be kind")
           (lit "calm") (lit "water stands for rest") []);
    [compute_done..|reflexivity].
Defined.







(** ** Properties of the pages *)

Module PageFacts.

Import PyStrFacts PyTextFacts.

(** *** Numbers as text *)

Lemma digit_of_char_digits d c t :
  digits_of_uint d = c :: t → is_Some (digit_of_char c).
Proof. destruct d; simpl; intros [= <- _]; by eexists. Qed.

Lemma uint_of_digits_of_uint d : uint_of_digits (digits_of_uint d) = Some d.
Proof. induction d; simpl; by rewrite ?IHd. Qed.

Lemma digit_groups_digits d :
  digit_groups true (digits_of_uint d) = Some (digits_of_uint d).
Proof. induction d; simpl; by rewrite ?IHd. Qed.

Lemma digit_groups_start d :
  d ≠ Decimal.Nil →
  digit_groups false (digits_of_uint d) = Some (digits_of_uint d).
Proof. destruct d; [done|..]; intros _; simpl; by rewrite digit_groups_digits. Qed.

Lemma digits_not_space d :
  Forall (fun c => int_space c = false) (digits_of_uint d).
Proof. induction d; simpl; by constructor. Qed.

Lemma digits_no_hash d :
  Forall (fun c => c ≠ "#"%char) (digits_of_uint d).
Proof. induction d; simpl; by constructor. Qed.

Lemma digits_not_sign d c t :
  digits_of_uint d = c :: t →
  Ascii.eqb c "-" = false ∧ Ascii.eqb c "+" = false.
Proof. destruct d; simpl; intros [= <- _]; done. Qed.

Lemma skip_spaces_id s :
  (∀ c, head s = Some c → int_space c = false) → skip_spaces s = s.
Proof. destruct s as [|a s]; simpl; [done|]. intros H. by rewrite (H a). Qed.

Lemma to_int_nonnil z :
  match Z.to_int z with Decimal.Pos d | Decimal.Neg d => d ≠ Decimal.Nil end.
Proof. destruct z; simpl; [done|apply Unsigned.to_uint_nonnil..]. Qed.

(** The text of an [int] has neither white space nor a number sign, and
    [int] reads the number back from it. *)
Lemma str_of_int_plain z s :
  str_of_int z = Done s →
  s ≠ [] ∧ Forall (fun c => int_space c = false) s ∧
  Forall (fun c => c ≠ "#"%char) s.
Proof.
  unfold str_of_int. pose proof (to_int_nonnil z) as Hnil.
  destruct (Z.to_int z) as [d|d]; case_match; intros [= <-].
  - split; [by destruct d|]. split; [apply digits_not_space|apply digits_no_hash].
  - split; [done|].
    split; (constructor; [done|]);
      [apply digits_not_space|apply digits_no_hash].
Qed.

Lemma int_of_str_of_int z s : str_of_int z = Done s → int_of_str s = Done z.
Proof.
  intros Hs. destruct (str_of_int_plain z s Hs) as (Hne & Hsp & _).
  unfold int_of_str.
  assert (reverse (skip_spaces (reverse (skip_spaces s))) = s) as ->.
  { rewrite (skip_spaces_id s).
    - rewrite skip_spaces_id; [apply reverse_involutive|].
      intros c. rewrite head_reverse. intros Hc.
      apply last_Some_elem_of in Hc. by eapply Forall_forall in Hsp.
    - intros c Hc. apply head_Some_elem_of in Hc.
      by eapply Forall_forall in Hsp. }
  revert Hs. unfold str_of_int.
  pose proof (to_int_nonnil z) as Hnil. pose proof (of_to z) as Hz.
  destruct (Z.to_int z) as [d|d]; case_match eqn:Hlen; intros [= <-].
  - destruct (digits_of_uint d) as [|c t] eqn:Hd; [by destruct d|].
    destruct (digits_not_sign d c t Hd) as [-> ->].
    rewrite <- Hd in Hlen |- *.
    rewrite digit_groups_start, Hlen, uint_of_digits_of_uint by done.
    by rewrite <- Hz.
  - change (lit "-" ++ digits_of_uint d) with ("-"%char :: digits_of_uint d).
    rewrite Ascii.eqb_refl.
    rewrite digit_groups_start, Hlen, uint_of_digits_of_uint by done.
    by rewrite <- Hz.
Qed.

(** *** The text after the last number sign *)

Lemma last_split_go_char c acc s t :
  Forall (fun x => x ≠ c) t →
  last (split_go [c] 0 acc (s ++ c :: t)) = Some t.
Proof.
  intros Ht. revert acc. induction s as [|x s IH]; intros acc.
  - change ([] ++ c :: t) with ([c] ++ t).
    rewrite split_go_sep by done.
    by rewrite (split_go_no_sep [c] [] t)
      by by apply (contains_tail_false [c] c).
  - change ((x :: s) ++ c :: t) with (x :: (s ++ c :: t)).
    cbn [split_go startswith]. destruct (Ascii.eqb c x); simpl.
    + rewrite last_cons. by rewrite IH.
    + apply IH.
Qed.

Lemma last_item_split c s t :
  Forall (fun x => x ≠ c) t → last_item (split [c] (s ++ c :: t)) = t.
Proof.
  intros Ht. unfold last_item, split. by rewrite last_split_go_char.
Qed.

(** *** Labels and entries *)

Lemma entry_label_inv e label :
  entry_label e = Done label →
  ∃ date shown id number,
    e !! "date" = Some date ∧ format_value date = Done shown ∧
    e !! "id" = Some id ∧ format_value id = Done number ∧
    label = shown ++ lit " - #" ++ number.
Proof.
  unfold entry_label, get_item.
  destruct (e !! "date") as [date|]; [simpl|done].
  destruct (format_value date) as [shown|] eqn:Hshown; [simpl|done].
  destruct (e !! "id") as [id|]; [simpl|done].
  destruct (format_value id) as [number|] eqn:Hnumber; [simpl|done].
  intros [= <-]. by exists date, shown, id, number.
Qed.

(** The number that [render_previous_entries] reads from the label of an
    entry whose id is an [int]. *)
Lemma label_number e n label :
  e !! "id" = Some (VInt n) →
  entry_label e = Done label →
  label ≠ [] ∧ int_of_str (last_item (split (lit "#") label)) = Done n.
Proof.
  intros Hid (date & shown & id & number & _ & _ & Hid' & Hnum & ->)%entry_label_inv.
  rewrite Hid in Hid'. injection Hid' as <-. simpl in Hnum.
  destruct (str_of_int_plain n number Hnum) as (_ & _ & Hhash).
  split; [by destruct shown|].
  change (shown ++ lit " - #" ++ number)
    with (shown ++ lit " - " ++ "#"%char :: number).
  rewrite app_assoc. change (lit "#") with ["#"%char].
  rewrite last_item_split by done. by apply int_of_str_of_int.
Qed.

(** The entry that [next] finds when the ids are numbers that differ. *)
Lemma first_with_id_lookup entries ids i e n :
  Forall2 (fun e n => e !! "id" = Some (VInt n)) entries ids →
  NoDup ids →
  entries !! i = Some e → ids !! i = Some n →
  first_with_id entries n = Done (Some e).
Proof.
  intros Hids. revert i.
  induction Hids as [|e0 n0 entries ids He0 _ IH]; intros i Hnd He Hn; [done|].
  apply NoDup_cons in Hnd as [Hn0 Hnd].
  cbn [first_with_id]. unfold get_item. rewrite He0. simpl.
  destruct i as [|i]; simpl in *.
  - injection He as <-. injection Hn as <-. by rewrite Z.eqb_refl.
  - destruct (Z.eqb_spec n0 n) as [->|_]; [|by eapply IH].
    destruct Hn0. by eapply list_elem_of_lookup_2.
Qed.

Lemma for_each_lookup {A B} (f : A → outcome B) l ys i y :
  for_each f l = Done ys → ys !! i = Some y →
  ∃ x, l !! i = Some x ∧ f x = Done y.
Proof.
  revert ys i. induction l as [|x l IH]; intros ys i; simpl.
  - by intros [= <-].
  - destruct (f x) as [y0|] eqn:Hx; [simpl|done].
    destruct (for_each f l) as [ys0|]; [simpl|done].
    intros [= <-]. destruct i as [|i]; simpl.
    + intros [= <-]. by exists x.
    + intros Hy. by apply (IH ys0).
Qed.

Lemma for_each_length {A B} (f : A → outcome B) l ys :
  for_each f l = Done ys → length ys = length l.
Proof.
  revert ys. induction l as [|x l IH]; intros ys; simpl.
  - by intros [= <-].
  - destruct (f x); [simpl|done]. destruct (for_each f l); [simpl|done].
    intros [= <-]. simpl. f_equal. by apply IH.
Qed.

(** The entry of a label is displayed. *)
Lemma render_entry_of_label entries ids i e label :
  Forall2 (fun e n => e !! "id" = Some (VInt n)) entries ids →
  NoDup ids →
  entries !! i = Some e →
  entry_label e = Done label →
  render_previous_entries entries label = display_entry e.
Proof.
  intros Hids Hnd He Hlabel.
  destruct (Forall2_lookup_l _ _ _ _ _ Hids He) as (n & Hn & Hid).
  destruct (label_number e n label Hid Hlabel) as [Hne Hint].
  unfold render_previous_entries.
  destruct label as [|c label]; [done|]. cbn [truthy negb].
  rewrite Hint. simpl.
  rewrite (first_with_id_lookup entries ids i e n) by done. simpl.
  rewrite bool_decide_eq_false_2; [done|].
  intros ->. by rewrite lookup_empty in Hid.
Qed.

End PageFacts.

Import PageFacts.

(** X11.  Where the ids of the entries are numbers that differ,
    [render_previous_entries], given the label that [render_sidebar]
    makes for an entry, displays this entry, whatever its date is, also a
    date with a number sign in it. *)
Theorem render_previous_entries_of_label entries ids i e label :
  Forall2 (fun e n => e !! "id" = Some (VInt n)) entries ids →
  NoDup ids →
  entries !! i = Some e →
  entry_label e = Done label →
  render_previous_entries entries label = display_entry e.
Proof. apply render_entry_of_label. Qed.

Lemma render_previous_entries_of_label_witness :
  let e1 : entry := {[ "id" := VInt 7; "date" := VStr (lit "2024-05-01") ]} in
  let e2 : entry := {[ "id" := VInt 12; "date" := VStr (lit "day #2");
                       "reflection" := VStr (lit "Feeling calm.") ]} in
  render_previous_entries [e1; e2] (lit "day #2 - #12") = display_entry e2.
Proof.
  intros e1 e2.
  apply (render_previous_entries_of_label [e1; e2] [7; 12]%Z 1 e2
           (lit "day #2 - #12")).
  - by repeat constructor.
  - compute_done.
  - reflexivity.
  - by vm_compute.
Defined.

(** X12.  When the button is not pressed and the labels of the entries
    can be made, [render_sidebar] returns the label of one of the entries,
    the one that the user chose in the list; and where the ids are
    numbers that differ, [render_previous_entries] with this label
    displays that entry. *)
Theorem render_sidebar_selection (radio : list str → str) entries ids labels :
  (∀ options, options ≠ [] → radio options ∈ options) →
  entries ≠ [] →
  for_each entry_label entries = Done labels →
  Forall2 (fun e n => e !! "id" = Some (VInt n)) entries ids →
  NoDup ids →
  ∃ widgets e,
    render_sidebar false radio entries
    = Done (widgets, Returned (Some (radio labels))) ∧
    e ∈ entries ∧
    entry_label e = Done (radio labels) ∧
    render_previous_entries entries (radio labels) = display_entry e.
Proof.
  intros Hradio Hne Hlabels Hids Hnd.
  assert (labels ≠ []) as Hl.
  { intros ->. apply for_each_length in Hlabels. by destruct entries. }
  destruct (list_elem_of_lookup_1 _ _ (Hradio labels Hl)) as [i Hi].
  destruct (for_each_lookup _ _ _ _ _ Hlabels Hi) as (e & He & Hlabel).
  eexists _, e. split; [|split; [by eapply list_elem_of_lookup_2|split; [done|]]].
  - unfold render_sidebar. destruct entries; [done|]. by rewrite Hlabels.
  - by eapply render_entry_of_label.
Qed.

Lemma render_sidebar_selection_witness :
  let e1 : entry := {[ "id" := VInt 7; "date" := VStr (lit "2024-05-01") ]} in
  let e2 : entry := {[ "id" := VInt 12; "date" := VStr (lit "2024-05-02") ]} in
  ∃ e, e ∈ [e1; e2] ∧
    render_previous_entries [e1; e2] (lit "2024-05-02 - #12") = display_entry e.
Proof.
  intros e1 e2.
  destruct (render_sidebar_selection (fun options => default [] (last options))
              [e1; e2] [7; 12]%Z [lit "2024-05-01 - #7"; lit "2024-05-02 - #12"])
    as (widgets & e & _ & Hin & _ & Hshown).
  - intros options Ho. destruct (last options) as [x|] eqn:Hx.
    + by apply last_Some_elem_of.
    + by apply last_None in Hx.
  - done.
  - by vm_compute.
  - by repeat constructor.
  - compute_done.
  - exists e. split; [exact Hin|exact Hshown].
Defined.


(** ** The split as a round trip *)

Lemma join_split_go sep n : sep ≠ [] → ∀ s acc,
  length s ≤ n → join sep (split_go sep 0 acc s) = reverse acc ++ s.
Proof.
  intros Hsep. induction n as [|n IH]; intros s acc Hn.
  - destruct s; [|simpl in Hn; lia]. simpl. by rewrite app_nil_r.
  - destruct s as [|c t]; [simpl; by rewrite app_nil_r|].
    simpl in Hn. cbn [split_go].
    destruct (startswith sep (c :: t)) eqn:E.
    + apply startswith_inv in E as [rest Hrest].
      destruct sep as [|a sep']; [done|]. injection Hrest as -> ->.
      rewrite split_go_skip by (simpl; lia).
      pose proof (split_go_not_nil (a :: sep') 0 [] rest) as Hnil.
      pose proof (IH rest [] ltac:(rewrite length_app in Hn; lia)) as Hrest.
      destruct (split_go (a :: sep') 0 [] rest) as [|p ps]; [done|].
      by rewrite join_cons_cons, Hrest.
    + rewrite IH by lia. by rewrite reverse_cons, <- app_assoc.
Qed.

(** X13.  The split of [_parse_response] loses nothing: its parts, joined
    again with the marker, are the response. *)
Theorem join_split_marker response :
  join marker (split marker response) = response.
Proof.
  unfold split. by rewrite (join_split_go marker (length response)).
Qed.
